(** * presidio_config: compilation of deny-lists and pattern recognizers

    A shallow embedding of [presidio_config.py].  Python [str] values are
    embedded as [string]; the character functions below are the ASCII
    fragment of Python's ([str.title], [str.split], [str.isspace]): every
    table of the program and both name corpora after transliteration are
    ASCII.  Characters above 127 are carried through unchanged. *)

From Stdlib Require Import List String Ascii Bool Arith NArith ZArith Lia.
From Stdlib Require Import Permutation Sorted.
Import ListNotations.
Open Scope string_scope.

(** ** Python string primitives *)

Module PyStr.

Definition in_range (lo hi c : ascii) : bool :=
  ((N_of_ascii lo <=? N_of_ascii c) && (N_of_ascii c <=? N_of_ascii hi))%N.

Definition isupper (c : ascii) : bool := in_range "A" "Z" c.
Definition islower (c : ascii) : bool := in_range "a" "z" c.
Definition iscased (c : ascii) : bool := isupper c || islower c.

Definition upper (c : ascii) : ascii :=
  if islower c then ascii_of_N (N_of_ascii c - 32) else c.
Definition lower (c : ascii) : ascii :=
  if isupper c then ascii_of_N (N_of_ascii c + 32) else c.

(** [str.title()]: a cased character is upper-cased when the character
    before it is not cased and lower-cased when it is. *)
Fixpoint title_from (previous_is_cased : bool) (s : string) : string :=
  match s with
  | EmptyString => EmptyString
  | String c r =>
      String (if previous_is_cased then lower c else upper c)
             (title_from (iscased c) r)
  end.

Definition title (s : string) : string := title_from false s.

(** [s.split(sep)] for a one-character separator: every occurrence of
    [sep] ends a field, so the result is never empty and adjacent
    separators give empty fields. *)
Fixpoint split_on (sep : ascii) (s : string) : list string :=
  match s with
  | EmptyString => [EmptyString]
  | String c r =>
      if (c =? sep)%char then EmptyString :: split_on sep r
      else match split_on sep r with
           | w :: ws => String c w :: ws
           | [] => [String c EmptyString]
           end
  end.

(** [str.isspace] on ASCII: tab, line feed, vertical tab, form feed,
    carriage return, the four separators 28..31 and the space. *)
Definition isspace (c : ascii) : bool :=
  in_range "009" "013" c || in_range "028" "032" c.

Definition starts_word (s : string) : bool :=
  match s with
  | EmptyString => false
  | String c _ => negb (isspace c)
  end.

(** [s.split()] without argument: the maximal runs of characters that are
    not whitespace; no empty field is ever produced. *)
Fixpoint split (s : string) : list string :=
  match s with
  | EmptyString => []
  | String c r =>
      if isspace c then split r
      else if starts_word r then
        match split r with
        | w :: ws => String c w :: ws
        | [] => [String c EmptyString]
        end
      else String c EmptyString :: split r
  end.

(** [sep.join(l)] *)
Definition join (sep : string) (l : list string) : string := concat sep l.

Definition newline : ascii := "010".

(** The lazy body of [\(.*?\)] right after an opening parenthesis: the
    number of characters before the first [")"], when no line feed comes
    before it ([.] does not match a line feed). *)
Fixpoint lazy_close (s : string) : option nat :=
  match s with
  | EmptyString => None
  | String c r =>
      if (c =? ")")%char then Some 0
      else if (c =? newline)%char then None
      else option_map S (lazy_close r)
  end.

(** [re.sub(r"\(.*?\)", "", s)], scanning left to right; [skip] counts the
    characters of the current match that are still to be dropped. *)
Fixpoint sub_parens_from (skip : nat) (s : string) : string :=
  match s with
  | EmptyString => EmptyString
  | String c r =>
      match skip with
      | S k => sub_parens_from k r
      | O =>
          if (c =? "(")%char then
            match lazy_close r with
            | Some n => sub_parens_from (S n) r
            | None => String c (sub_parens_from 0 r)
            end
          else String c (sub_parens_from 0 r)
      end
  end.

Definition sub_parens (s : string) : string := sub_parens_from 0 s.

Fixpoint contains (c : ascii) (s : string) : bool :=
  match s with
  | EmptyString => false
  | String d r => (d =? c)%char || contains c r
  end.

(** [x in l] on a list of strings *)
Definition mem (x : string) (l : list string) : bool :=
  existsb (String.eqb x) l.

(** [sorted(l)] on strings: ascending code-point order. *)
Fixpoint insert (x : string) (l : list string) : list string :=
  match l with
  | [] => [x]
  | y :: r => if String.leb x y then x :: l else y :: insert x r
  end.

Definition sorted (l : list string) : list string := fold_right insert [] l.

(** [list(set(l))]: the distinct elements of [l].  Python leaves the order
    of a set open; [set_list] is one enumeration, and [enumerates] is what
    every enumeration satisfies. *)
Definition set_list (l : list string) : list string := nodup string_dec l.

Definition enumerates (l e : list string) : Prop :=
  NoDup e /\ forall x, In x e <-> In x l.

End PyStr.

Import PyStr.

(** ** List compilation *)

Definition get_unique_names (name_list remove_list : list string) : list string :=
  let name_list :=
    sorted (set_list (flat_map (fun name => map title (split_on " " name)) name_list)) in
  filter (fun name => negb (mem name remove_list)) name_list.

Definition get_datetime_list (month_list week_list time_list : list string) : list string :=
  month_list ++ week_list ++ time_list.

Definition email_labels (email_domains : list string) : list string :=
  map (fun domain => title (hd EmptyString (split_on "." domain))) email_domains.

Definition get_email_list (email_domains : list string) : list string :=
  set_list (email_labels email_domains).

Definition clean_location (item : string) : string :=
  title (join " " (split (sub_parens item))).

Definition generate_location_list
  (country_names state_names city_names airport_names : list string) : list string :=
  let location_list :=
    sorted (set_list (country_names ++ state_names ++ city_names ++ airport_names)) in
  map clean_location location_list.

(** ** Corpus processing

    A corpus file is embedded as the frame [pd.read_csv] returns for it.  A
    field of the frequency column is a number, absent ([NaN]: an empty field
    or one of the markers [read_csv] reads as absent), or any other text.
    Frequencies of both corpora are counts, embedded in [Z]. *)

Module Frame.

Inductive exn : Type := TypeError.

Inductive result (A : Type) : Type :=
| Ok (a : A)
| Raise (e : exn).
Arguments Ok {A} a.
Arguments Raise {A} e.

Definition bind {A B : Type} (m : result A) (k : A -> result B) : result B :=
  match m with
  | Ok a => k a
  | Raise e => Raise e
  end.

Inductive cell : Type :=
| Num (z : Z)
| NaN
| Str (s : string).

(** [x > top_n] on one field: a comparison with [NaN] is false, a
    comparison of text with an integer raises. *)
Definition cell_gt (top_n : Z) (x : cell) : result bool :=
  match x with
  | Num z => Ok (top_n <? z)%Z
  | NaN => Ok false
  | Str _ => Raise TypeError
  end.

(** [column > top_n], field by field *)
Fixpoint series_gt (column : list cell) (top_n : Z) : result (list bool) :=
  match column with
  | [] => Ok []
  | x :: r =>
      bind (cell_gt top_n x) (fun b =>
      bind (series_gt r top_n) (fun bs => Ok (b :: bs)))
  end.

(** [data[mask]] *)
Fixpoint select {A : Type} (data : list A) (mask : list bool) : list A :=
  match data, mask with
  | row :: d, b :: m => if b then row :: select d m else select d m
  | _, _ => []
  end.

End Frame.

Import Frame.

Notation "x <- m ;; k" := (bind m (fun x => k))
  (at level 61, m at next level, right associativity).

(** Rows of a [.txt] file, columns named Name, Gender, Number. *)
Record txt_row : Type := { Name : string; Gender : string; Number : cell }.

(** Rows of a [.csv] file after its first line is skipped; columns 0 and 1. *)
Record csv_row : Type := { col0 : option string; col1 : cell }.

Definition default_top_n : Z := 1000.

Fixpoint process_name_txt_files
  (files : list (list txt_row)) (name_list : list string) (top_n : Z)
  : result (list string) :=
  match files with
  | [] => Ok name_list
  | data :: rest =>
      mask <- series_gt (map Number data) top_n ;;
      process_name_txt_files rest (name_list ++ map Name (select data mask)) top_n
  end.

(** [data.iloc[:, 0].dropna().tolist()] *)
Definition dropna (column : list (option string)) : list string :=
  flat_map (fun x => match x with Some s => [s] | None => [] end) column.

Fixpoint process_name_csv_files (unidecode : string -> string)
  (files : list (list csv_row)) (name_list : list string) (top_n : Z)
  : result (list string) :=
  match files with
  | [] => Ok name_list
  | data :: rest =>
      mask <- series_gt (map col1 data) top_n ;;
      process_name_csv_files unidecode rest
        (name_list ++ map unidecode (dropna (map col0 (select data mask)))) top_n
  end.

(** ** Pattern recognizers *)

Module Regex.

(** A pattern [(?<=b)([...])(?=a)]: one character of a class, with the
    character [b] right before it and the character [a] right after it. *)
Record pattern : Type :=
  { lookbehind : ascii; char_class : list (ascii * ascii); lookahead : ascii }.

Definition in_class (cls : list (ascii * ascii)) (c : ascii) : bool :=
  existsb (fun r => in_range (fst r) (snd r) c) cls.

Definition prev_is (a : ascii) (prev : option ascii) : bool :=
  match prev with
  | Some d => (d =? a)%char
  | None => false
  end.

Definition next_is (a : ascii) (s : string) : bool :=
  match s with
  | String d _ => (d =? a)%char
  | EmptyString => false
  end.

Definition matches_here (p : pattern) (prev : option ascii) (c : ascii) (r : string) : bool :=
  prev_is (lookbehind p) prev && in_class (char_class p) c && next_is (lookahead p) r.

(** The spans [(start, end)] of [re.finditer]: positions are tried from
    left to right; a match consumes its one character and the scan goes on
    right after it. *)
Fixpoint finditer_from (p : pattern) (prev : option ascii) (i : nat) (s : string)
  : list (nat * nat) :=
  match s with
  | EmptyString => []
  | String c r =>
      if matches_here p prev c r
      then (i, S i) :: finditer_from p (Some c) (S i) r
      else finditer_from p (Some c) (S i) r
  end.

Definition finditer (p : pattern) (s : string) : list (nat * nat) :=
  finditer_from p None 0 s.

End Regex.

(** [(?<= )([B-HJ-Z])(?= )] *)
Definition single_char_pattern : Regex.pattern :=
  {| Regex.lookbehind := " ";
     Regex.char_class := [("B", "H"); ("J", "Z")]%char;
     Regex.lookahead := " " |}.

Definition single_char_matches (text : string) : list (nat * nat) :=
  Regex.finditer single_char_pattern text.

(** The text of a span *)
Definition span_text (text : string) (sp : nat * nat) : string :=
  substring (fst sp) (snd sp - fst sp) text.

(** ** The tables of [run] *)

Definition country_names : list string :=
  ["United States"; "America"; "Canada"; "Afghanistan"; "Albania"; "Algeria";
   "American Samoa"; "Andorra"; "Angola"; "Anguilla"; "Antarctica";
   "Antigua and Barbuda"; "Argentina"; "Armenia"; "Aruba"; "Australia";
   "Austria"; "Azerbaijan"; "Bahamas"; "Bahrain"; "Bangladesh"; "Barbados";
   "Belarus"; "Belgium"; "Belize"; "Benin"; "Bermuda"; "Bhutan"; "Bolivia";
   "Bosnia and Herzegovina"; "Botswana"; "Bouvet Island"; "Brazil";
   "British Indian Ocean Territory"; "Brunei Darussalam"; "Bulgaria";
   "Burkina Faso"; "Burundi"; "Cambodia"; "Cameroon"; "Cape Verde";
   "Cayman Islands"; "Central African Republic"; "Chad"; "Chile"; "China";
   "Christmas Island"; "Cocos (Keeling) Islands"; "Colombia"; "Comoros";
   "Congo"; "Cook Islands"; "Costa Rica"; "Croatia (Hrvatska)"; "Cuba";
   "Cyprus"; "Czech Republic"; "Denmark"; "Djibouti"; "Dominica";
   "Dominican Republic"; "East Timor"; "Ecudaor"; "Egypt"; "El Salvador";
   "Equatorial Guinea"; "Eritrea"; "Estonia"; "Ethiopia"; "Falkland Islands";
   "Faroe Islands"; "Fiji"; "Finland"; "France"; "France, Metropolitan";
   "French Guiana"; "French Polynesia"; "French Southern Territories";
   "Gabon"; "Gambia"; "Georgia"; "Germany"; "Ghana"; "Gibraltar"; "Greece";
   "Greenland"; "Grenada"; "Guadeloupe"; "Guam"; "Guatemala"; "Guinea";
   "Guinea-Bissau"; "Guyana"; "Haiti"; "Heard and Mc Donald Islands";
   "Honduras"; "Hong Kong"; "Hungary"; "Iceland"; "India"; "Indonesia";
   "Iran"; "Iraq"; "Ireland"; "Israel"; "Italy"; "Ivory Coast"; "Jamaica";
   "Japan"; "Jordan"; "Kazakhstan"; "Kenya"; "Kiribati"; "Korea"; "Kosovo";
   "Kuwait"; "Kyrgyzstan"; "Laos"; "Latvia"; "Lebanon"; "Lesotho"; "Liberia";
   "Libya"; "Liechtenstein"; "Lithuania"; "Luxembourg"; "Macau"; "Macedonia";
   "Madagascar"; "Malawi"; "Malaysia"; "Maldives"; "Mali"; "Malta";
   "Marshall Islands"; "Martinique"; "Mauritania"; "Mauritius"; "Mayotte";
   "Mexico"; "Micronesia"; "Moldova"; "Monaco"; "Mongolia"; "Montserrat";
   "Morocco"; "Mozambique"; "Myanmar"; "Namibia"; "Nauru"; "Nepal";
   "Netherlands"; "Netherlands Antilles"; "New Caledonia"; "New Zealand";
   "Nicaragua"; "Niger"; "Nigeria"; "Niue"; "Norfork Island";
   "Northern Mariana Islands"; "Norway"; "Oman"; "Pakistan"; "Palau";
   "Panama"; "Papua New Guinea"; "Paraguay"; "Peru"; "Philippines";
   "Pitcairn"; "Poland"; "Portugal"; "Puerto Rico"; "Qatar"; "Reunion";
   "Romania"; "Russian Federation"; "Rwanda"; "Saint Kitts and Nevis";
   "Saint Lucia"; "Saint Vincent and the Grenadines"; "Samoa"; "San Marino";
   "Sao Tome and Principe"; "Saudi Arabia"; "Senegal"; "Seychelles";
   "Sierra Leone"; "Singapore"; "Slovakia"; "Slovenia"; "Solomon Islands";
   "Somalia"; "South Africa"; "South Georgia South Sandwich Islands";
   "South Sudan"; "Spain"; "Sri Lanka"; "St. Helena";
   "St. Pierre and Miquelon"; "Sudan"; "Suriname";
   "Svalbarn and Jan Mayen Islands"; "Swaziland"; "Sweden"; "Switzerland";
   "Syrian Arab Republic"; "Taiwan"; "Tajikistan";
   "Tanzania, United Republic of"; "Thailand"; "Togo"; "Tokelau"; "Tonga";
   "Trinidad and Tobago"; "Tunisia"; "Turkey"; "Turkmenistan";
   "Turks and Caicos Islands"; "Tuvalu"; "Uganda"; "Ukraine";
   "United Arab Emirates"; "United Kingdom";
   "United States minor outlying islands"; "Uruguay"; "Uzbekistan"; "Vanuatu";
   "Vatican City State"; "Venezuela"; "Vietnam"; "Virigan Islands";
   "Wallis and Futuna Islands"; "Western Sahara"; "Yemen"; "Yugoslavia";
   "Zaire"; "Zambia"; "Zimbabwe"].

Definition state_names : list string :=
  ["Alaska"; "Alabama"; "Arkansas"; "American Samoa"; "Arizona"; "California";
   "Colorado"; "Connecticut"; "District Of Columbia"; "Delaware"; "Florida";
   "Georgia"; "Guam"; "Hawaii"; "Iowa"; "Idaho"; "Illinois"; "Indiana";
   "Kansas"; "Kentucky"; "Louisiana"; "Massachusetts"; "Maryland"; "Maine";
   "Michigan"; "Minnesota"; "Missouri"; "Mississippi"; "Montana";
   "North Carolina"; "North Dakota"; "Nebraska"; "New Hampshire";
   "New Jersey"; "New Mexico"; "Nevada"; "New York"; "Ohio"; "Oklahoma";
   "Oregon"; "Pennsylvania"; "Puerto Rico"; "Rhode Island"; "South Carolina";
   "South Dakota"; "Tennessee"; "Texas"; "Utah"; "Virginia"; "Virgin Islands";
   "Vermont"; "Washington"; "Wisconsin"; "West Virginia"; "Wyoming"].

Definition city_names : list string :=
  ["Aberdeen"; "Abilene"; "Akron"; "Albany"; "Albuquerque"; "Alexandria";
   "Allentown"; "Amarillo"; "Anaheim"; "Anchorage"; "Ann Arbor"; "Antioch";
   "Apple Valley"; "Appleton"; "Arlington"; "Arvada"; "Asheville"; "Athens";
   "Atlanta"; "Atlantic City"; "Augusta"; "Aurora"; "Austin"; "Bakersfield";
   "Baltimore"; "Barnstable"; "Baton Rouge"; "Beaumont"; "Bel Air";
   "Bellevue"; "Berkeley"; "Bethlehem"; "Billings"; "Birmingham";
   "Bloomington"; "Boise"; "Boise City"; "Bonita Springs"; "Boston";
   "Boulder"; "Bradenton"; "Bremerton"; "Bridgeport"; "Brighton";
   "Brownsville"; "Bryan"; "Buffalo"; "Burbank"; "Burlington"; "Cambridge";
   "Canton"; "Cape Coral"; "Carrollton"; "Cary"; "Cathedral City";
   "Cedar Rapids"; "Champaign"; "Chandler"; "Charleston"; "Charlotte";
   "Chattanooga"; "Chesapeake"; "Chicago"; "Chula Vista"; "Cincinnati";
   "Clarke County"; "Clarksville"; "Clearwater"; "Cleveland";
   "College Station"; "Colorado Springs"; "Columbia"; "Columbus"; "Concord";
   "Coral Springs"; "Corona"; "Corpus Christi"; "Costa Mesa"; "Dallas";
   "Daly City"; "Danbury"; "Davenport"; "Davidson County"; "Dayton";
   "Daytona Beach"; "Deltona"; "Denton"; "Denver"; "Des Moines"; "Detroit";
   "Downey"; "Duluth"; "Durham"; "El Monte"; "El Paso"; "Elizabeth";
   "Elk Grove"; "Elkhart"; "Erie"; "Escondido"; "Eugene"; "Evansville";
   "Fairfield"; "Fargo"; "Fayetteville"; "Fitchburg"; "Flint"; "Fontana";
   "Fort Collins"; "Fort Lauderdale"; "Fort Smith"; "Fort Walton Beach";
   "Fort Wayne"; "Fort Worth"; "Frederick"; "Fremont"; "Fresno"; "Fullerton";
   "Gainesville"; "Garden Grove"; "Garland"; "Gastonia"; "Gilbert";
   "Glendale"; "Grand Prairie"; "Grand Rapids"; "Grayslake"; "Green Bay";
   "GreenBay"; "Greensboro"; "Greenville"; "Gulfport-Biloxi"; "Hagerstown";
   "Hampton"; "Harlingen"; "Harrisburg"; "Hartford"; "Havre de Grace";
   "Hayward"; "Hemet"; "Henderson"; "Hesperia"; "Hialeah"; "Hickory";
   "High Point"; "Hollywood"; "Honolulu"; "Houma"; "Houston"; "Howell";
   "Huntington"; "Huntington Beach"; "Huntsville"; "Independence";
   "Indianapolis"; "Inglewood"; "Irvine"; "Irving"; "Jackson"; "Jacksonville";
   "Jefferson"; "Jersey City"; "Johnson City"; "Joliet"; "Kailua";
   "Kalamazoo"; "Kaneohe"; "Kansas City"; "Kennewick"; "Kenosha"; "Killeen";
   "Kissimmee"; "Knoxville"; "Lacey"; "Lafayette"; "Lake Charles"; "Lakeland";
   "Lakewood"; "Lancaster"; "Lansing"; "Laredo"; "Las Cruces"; "Las Vegas";
   "Layton"; "Leominster"; "Lewisville"; "Lexington"; "Lincoln";
   "Little Rock"; "Long Beach"; "Lorain"; "Los Angeles"; "Louisville";
   "Lowell"; "Lubbock"; "Macon"; "Madison"; "Manchester"; "Marina";
   "Marysville"; "McAllen"; "McHenry"; "Medford"; "Melbourne"; "Memphis";
   "Merced"; "Mesa"; "Mesquite"; "Miami"; "Milwaukee"; "Minneapolis";
   "Miramar"; "Mission Viejo"; "Mobile"; "Modesto"; "Monroe"; "Monterey";
   "Montgomery"; "Moreno Valley"; "Murfreesboro"; "Murrieta"; "Muskegon";
   "Myrtle Beach"; "Naperville"; "Naples"; "Nashua"; "Nashville";
   "New Bedford"; "New Haven"; "New London"; "New Orleans"; "New York";
   "New York City"; "Newark"; "Newburgh"; "Newport News"; "Norfolk"; "Normal";
   "Norman"; "North Charleston"; "North Las Vegas"; "North Port"; "Norwalk";
   "Norwich"; "Oakland"; "Ocala"; "Oceanside"; "Odessa"; "Ogden";
   "Oklahoma City"; "Olathe"; "Olympia"; "Omaha"; "Ontario"; "Orange"; "Orem";
   "Orlando"; "Overland Park"; "Oxnard"; "Palm Bay"; "Palm Springs";
   "Palmdale"; "Panama City"; "Pasadena"; "Paterson"; "Pembroke Pines";
   "Pensacola"; "Peoria"; "Philadelphia"; "Phoenix"; "Pittsburgh"; "Plano";
   "Pomona"; "Pompano Beach"; "Port Arthur"; "Port Orange";
   "Port Saint Lucie"; "Port St. Lucie"; "Portland"; "Portsmouth";
   "Poughkeepsie"; "Providence"; "Provo"; "Pueblo"; "Punta Gorda"; "Racine";
   "Raleigh"; "Rancho Cucamonga"; "Reading"; "Redding"; "Reno"; "Richland";
   "Richmond"; "Richmond County"; "Riverside"; "Roanoke"; "Rochester";
   "Rockford"; "Roseville"; "Round Lake Beach"; "Sacramento"; "Saginaw";
   "Saint Louis"; "Saint Paul"; "Saint Petersburg"; "Salem"; "Salinas";
   "Salt Lake City"; "San Antonio"; "San Bernardino"; "San Buenaventura";
   "San Diego"; "San Francisco"; "San Jose"; "Santa Ana"; "Santa Barbara";
   "Santa Clara"; "Santa Clarita"; "Santa Cruz"; "Santa Maria"; "Santa Rosa";
   "Sarasota"; "Savannah"; "Scottsdale"; "Scranton"; "Seaside"; "Seattle";
   "Sebastian"; "Shreveport"; "Simi Valley"; "Sioux City"; "Sioux Falls";
   "South Bend"; "South Lyon"; "Spartanburg"; "Spokane"; "Springdale";
   "Springfield"; "St. Louis"; "St. Paul"; "St. Petersburg"; "Stamford";
   "Sterling Heights"; "Stockton"; "Sunnyvale"; "Syracuse"; "Tacoma";
   "Tallahassee"; "Tampa"; "Temecula"; "Tempe"; "Thornton"; "Thousand Oaks";
   "Toledo"; "Topeka"; "Torrance"; "Trenton"; "Tucson"; "Tulsa"; "Tuscaloosa";
   "Tyler"; "Utica"; "Vallejo"; "Vancouver"; "Vero Beach"; "Victorville";
   "Virginia Beach"; "Visalia"; "Waco"; "Warren"; "Washington"; "Waterbury";
   "Waterloo"; "West Covina"; "West Valley City"; "Westminster"; "Wichita";
   "Wilmington"; "Winston"; "Winter Haven"; "Worcester"; "Yakima"; "Yonkers";
   "York"; "Youngstown"].

Definition airport_names : list string :=
  ["London Heathrow"; "Amsterdam"; "Kuala Lumpur"; "Tokyo Haneda"; "Istanbul";
   "Seoul Incheon"; "Paris"; "Toronto"; "Singapore"; "Manila"; "Dubai";
   "Soekarno Hatta"; "Munich"; "Sydney"; "Delhi"; "Madrid"; "Bogota";
   "Fukuoka"; "Shanghai Pudong"; "Doha"; "Mumbai"; "Johannesburg";
   "Rome Fiumicino"; "Athens"; "Barcelona"; "Taipei"; "Taoyuan";
   "Guangzhou Baiyun"; "Hanoi"; "Riyadh"; "Auckland"; "Wellington";
   "Melbourne"].

Definition month_list : list string :=
  ["January"; "February"; "March"; "April"; "June"; "July"; "August";
   "September"; "October"; "November"; "December"].

Definition week_list : list string :=
  ["Monday"; "Tuesday"; "Wednesday"; "Thursday"; "Friday"; "Saturday";
   "Sunday"].

Definition time_list : list string :=
  ["Noon"; "Midnight"].

Definition email_domains : list string :=
  ["aol.com"; "att.net"; "comcast.net"; "facebook.com"; "gmail.com";
   "gmx.com"; "googlemail.com"; "google.com"; "hotmail.com"; "mac.com";
   "microsoft.com"; "msn.com"; "verizon.net"; "yahoo.com"].

Definition remove_list : list string :=
  ["A"; "Job"; "You"; "West"; "Don"; "Young"; "Ma"; "Said"; "Bye Bye"; "Okay";
   "Perfect"].

Definition additional_names : list string :=
  ["Maryellen"; "Chantelle"; "Kirkland"; "Johnston"].

(** ** [run]: the deny-list of each category *)

Inductive category : Type := PERSON | LOCATION | DATE_TIME | EMAIL_DOMAIN.

(** The name list of [run], from the two corpora. *)
Definition run_name_list (unidecode : string -> string)
  (ssa_names : list (list txt_row)) (hispanic_names : list (list csv_row))
  : result (list string) :=
  name_list <- process_name_txt_files ssa_names [] default_top_n ;;
  name_list <- process_name_csv_files unidecode hispanic_names name_list default_top_n ;;
  Ok (name_list ++ additional_names)%list.

(** The deny-list [run] hands to the recognizer of a category, for the name
    list read from the corpora. *)
Definition deny_list (c : category) (name_list : list string) : list string :=
  match c with
  | PERSON => get_unique_names name_list remove_list
  | LOCATION => generate_location_list country_names state_names city_names airport_names
  | DATE_TIME => get_datetime_list month_list week_list time_list
  | EMAIL_DOMAIN => get_email_list email_domains
  end.

(** Only [get_unique_names] takes a list of terms to leave out. *)
Definition exclusion_set (c : category) : list string :=
  match c with
  | PERSON => remove_list
  | _ => []
  end.

(** ** Reference definitions

    Definitions that follow the wording of the specification, to be compared
    with the functions above. *)

(** Compilation as worded: split on whitespace, title-case, deduplicate,
    sort, remove the exclusions. *)
Definition compile_as_worded (rawTerms exclusions : list string) : list string :=
  filter (fun t => negb (mem t exclusions))
         (sorted (set_list (map title (flat_map split rawTerms)))).

(** The names of the months. *)
Definition month_names : list string :=
  ["January"; "February"; "March"; "April"; "May"; "June"; "July"; "August";
   "September"; "October"; "November"; "December"].

(** The names of the weekdays. *)
Definition weekday_names : list string :=
  ["Monday"; "Tuesday"; "Wednesday"; "Thursday"; "Friday"; "Saturday"; "Sunday"].

(** Ascending order without repetition. *)
Definition str_lt (s t : string) : Prop := String.ltb s t = true.
Definition str_le (s t : string) : Prop := String.leb s t = true.

Definition sorted_nodup (l : list string) : Prop := StronglySorted str_lt l.

(** A decision procedure for [sorted_nodup], for the tables of [run]. *)
Fixpoint ascendingb (l : list string) : bool :=
  match l with
  | x :: ((y :: _) as r) => String.ltb x y && ascendingb r
  | _ => true
  end.

(** The terms of the rows of one file whose frequency exceeds [top_n]. *)
Definition exceeds (top_n : Z) (x : cell) : bool :=
  match x with
  | Num z => (top_n <? z)%Z
  | _ => false
  end.

Definition is_text (x : cell) : bool :=
  match x with
  | Str _ => true
  | _ => false
  end.

Definition frequent_txt (top_n : Z) (data : list txt_row) : list string :=
  map Name (filter (fun row => exceeds top_n (Number row)) data).

Definition frequent_csv (top_n : Z) (data : list csv_row) : list string :=
  dropna (map col0 (filter (fun row => exceeds top_n (col1 row)) data)).

(** ** The number pattern

    [\b\d+\b] of [get_number_recognizer], on ASCII text. *)

Module NumberRegex.

Definition isdigit (c : ascii) : bool := in_range "0" "9" c.

(** [\w] *)
Definition isword (c : ascii) : bool :=
  isdigit c || isupper c || islower c || (c =? "_")%char.

Definition word_at (x : option ascii) : bool :=
  match x with
  | Some c => isword c
  | None => false
  end.

(** [\b] between two neighbouring places: a word character on exactly one
    side; outside the text there is none. *)
Definition boundary (before after : option ascii) : bool :=
  xorb (word_at before) (word_at after).

(** The greedy [\d*]: the number of digits at the head of [s]. *)
Fixpoint digits_prefix (s : string) : nat :=
  match s with
  | EmptyString => 0
  | String c r => if isdigit c then S (digits_prefix r) else 0
  end.

(** [\d+\b] at the head of [s], trying [n] digits first and then fewer, down
    to one: the length of the first run that ends at a boundary. *)
Fixpoint backtrack (n : nat) (s : string) : option nat :=
  match n with
  | O => None
  | S m => if boundary (get m s) (get n s) then Some n else backtrack m s
  end.

(** The spans of [re.finditer]; [skip] counts the characters of the last
    match that the scan still has to pass. *)
Fixpoint finditer_from (skip : nat) (prev : option ascii) (i : nat) (s : string)
  : list (nat * nat) :=
  match s with
  | EmptyString => []
  | String c r =>
      match skip with
      | S k => finditer_from k (Some c) (S i) r
      | O =>
          if boundary prev (Some c) then
            match backtrack (digits_prefix (String c r)) (String c r) with
            | Some n => (i, i + n) :: finditer_from (n - 1) (Some c) (S i) r
            | None => finditer_from 0 (Some c) (S i) r
            end
          else finditer_from 0 (Some c) (S i) r
      end
  end.

Definition finditer (s : string) : list (nat * nat) := finditer_from 0 None 0 s.

End NumberRegex.



(** The number of occurrences of a character. *)
Fixpoint count_char (c : ascii) (s : string) : nat :=
  match s with
  | EmptyString => 0
  | String d r => (if (d =? c)%char then 1 else 0) + count_char c r
  end.

(** A word: a string that is not empty and holds no whitespace. *)
Fixpoint no_space (s : string) : bool :=
  match s with
  | EmptyString => true
  | String c r => negb (isspace c) && no_space r
  end.

Definition is_word (s : string) : bool :=
  match s with
  | EmptyString => false
  | String _ _ => no_space s
  end.

(** A parenthetical that [\(.*?\)] can match: no closing parenthesis and no
    line feed inside. *)
Fixpoint plain_body (s : string) : bool :=
  match s with
  | EmptyString => true
  | String c r => negb (c =? ")")%char && negb (c =? newline)%char && plain_body r
  end.

(** * Properties *)

(** ** Code-point order on strings *)

Section StringOrder.

Lemma ascii_compare_refl (a : ascii) : Ascii.compare a a = Eq.
Proof. unfold Ascii.compare. apply N.compare_refl. Qed.

Lemma ascii_compare_lt_trans (a b c : ascii) :
  Ascii.compare a b = Lt -> Ascii.compare b c = Lt -> Ascii.compare a c = Lt.
Proof.
  unfold Ascii.compare. rewrite !N.compare_lt_iff. lia.
Qed.

Lemma compare_refl (s : string) : String.compare s s = Eq.
Proof.
  induction s as [|c s IH]; simpl; [reflexivity|].
  now rewrite ascii_compare_refl.
Qed.

Lemma compare_lt_trans (s t u : string) :
  String.compare s t = Lt -> String.compare t u = Lt -> String.compare s u = Lt.
Proof.
  revert t u. induction s as [|a s IH]; intros [|b t] [|c u]; simpl; try congruence.
  destruct (Ascii.compare a b) eqn:Eab; try discriminate.
  - apply Ascii.compare_eq_iff in Eab. subst b.
    destruct (Ascii.compare a c); try congruence. apply IH.
  - intros _. destruct (Ascii.compare b c) eqn:Ebc; try discriminate.
    + apply Ascii.compare_eq_iff in Ebc. subst c. now rewrite Eab.
    + intros _. now rewrite (ascii_compare_lt_trans a b c).
Qed.

Lemma str_lt_compare (s t : string) : str_lt s t <-> String.compare s t = Lt.
Proof.
  unfold str_lt, String.ltb. destruct (String.compare s t); split; congruence.
Qed.

Lemma str_lt_irrefl (s : string) : ~ str_lt s s.
Proof. rewrite str_lt_compare, compare_refl. discriminate. Qed.

Lemma str_lt_trans (s t u : string) : str_lt s t -> str_lt t u -> str_lt s u.
Proof. rewrite !str_lt_compare. apply compare_lt_trans. Qed.

Lemma leb_true_cases (s t : string) : String.leb s t = true -> s = t \/ str_lt s t.
Proof.
  unfold String.leb. rewrite str_lt_compare.
  destruct (String.compare s t) eqn:E; try discriminate; intros _.
  - left. now apply String.compare_eq_iff.
  - now right.
Qed.

Lemma leb_false_lt (s t : string) : String.leb s t = false -> str_lt t s.
Proof.
  unfold String.leb. rewrite str_lt_compare, (String.compare_antisym s t).
  destruct (String.compare t s); simpl; intros H; congruence.
Qed.

Lemma str_lt_asym (s t : string) : str_lt s t -> ~ str_lt t s.
Proof. intros Hst Hts. exact (str_lt_irrefl s (str_lt_trans _ _ _ Hst Hts)). Qed.

End StringOrder.

(** ** [sorted] and [set_list] *)

Section Sorting.

Lemma in_insert (x a : string) (l : list string) :
  In x (insert a l) <-> x = a \/ In x l.
Proof.
  induction l as [|y r IH]; simpl.
  - intuition congruence.
  - destruct (String.leb a y); simpl; rewrite ?IH; intuition congruence.
Qed.

Lemma in_sorted (x : string) (l : list string) : In x (sorted l) <-> In x l.
Proof.
  induction l as [|a l IH]; simpl; [tauto|].
  rewrite in_insert, IH. intuition congruence.
Qed.

Lemma insert_sorted_nodup (a : string) (l : list string) :
  sorted_nodup l -> ~ In a l -> sorted_nodup (insert a l).
Proof.
  unfold sorted_nodup. induction 1 as [|y r Hr IH Hy]; intros Hin; simpl.
  - constructor; constructor.
  - destruct (String.leb a y) eqn:E.
    + assert (Hay : str_lt a y).
      { destruct (leb_true_cases _ _ E) as [->|H]; [|exact H].
        exfalso. apply Hin. now left. }
      constructor; [constructor; assumption|].
      constructor; [exact Hay|].
      rewrite Forall_forall in Hy |- *. intros z Hz.
      eapply str_lt_trans; [exact Hay | auto].
    + constructor.
      * apply IH. intros H. apply Hin. now right.
      * rewrite Forall_forall in Hy |- *. intros z Hz.
        apply in_insert in Hz. destruct Hz as [->|Hz]; [|auto].
        now apply leb_false_lt.
Qed.

Lemma sorted_sorted_nodup (l : list string) : NoDup l -> sorted_nodup (sorted l).
Proof.
  induction 1 as [|a l Ha Hl IH]; simpl.
  - constructor.
  - apply insert_sorted_nodup; [exact IH|]. now rewrite in_sorted.
Qed.

Lemma sorted_nodup_NoDup (l : list string) : sorted_nodup l -> NoDup l.
Proof.
  induction 1 as [|a l Hl IH Ha]; constructor; [|exact IH].
  intros Hin. rewrite Forall_forall in Ha.
  exact (str_lt_irrefl a (Ha a Hin)).
Qed.

Lemma sorted_nodup_filter (f : string -> bool) (l : list string) :
  sorted_nodup l -> sorted_nodup (filter f l).
Proof.
  induction 1 as [|a l Hl IH Ha]; simpl; [constructor|].
  destruct (f a); [|exact IH].
  constructor; [exact IH|].
  rewrite Forall_forall in Ha |- *. intros z Hz.
  apply filter_In in Hz. now apply Ha.
Qed.

(** Two ascending lists with the same elements are the same list. *)
Lemma sorted_nodup_unique (l1 l2 : list string) :
  sorted_nodup l1 -> sorted_nodup l2 ->
  (forall x, In x l1 <-> In x l2) -> l1 = l2.
Proof.
  intros H1. revert l2. induction H1 as [|a l1 Hl1 IH Ha]; intros l2 H2 Heq.
  - destruct l2 as [|b l2]; [reflexivity|].
    exfalso. apply (proj2 (Heq b)). now left.
  - destruct H2 as [|b l2 Hl2 Hb].
    + exfalso. apply (proj1 (Heq a)). now left.
    + rewrite Forall_forall in Ha, Hb.
      assert (a = b) as ->.
      { destruct (proj1 (Heq a) (or_introl eq_refl)) as [E|Hin1]; [now symmetry|].
        destruct (proj2 (Heq b) (or_introl eq_refl)) as [E|Hin2]; [assumption|].
        exfalso. exact (str_lt_asym _ _ (Ha _ Hin2) (Hb _ Hin1)). }
      f_equal. apply IH; [exact Hl2|].
      intros x; split; intros Hx.
      * destruct (proj1 (Heq x) (or_intror Hx)) as [E|H]; [|exact H].
        subst x. exfalso. exact (str_lt_irrefl _ (Ha _ Hx)).
      * destruct (proj2 (Heq x) (or_intror Hx)) as [E|H]; [|exact H].
        subst x. exfalso. exact (str_lt_irrefl _ (Hb _ Hx)).
Qed.

Lemma set_list_enumerates (l : list string) : enumerates l (set_list l).
Proof.
  split; [apply NoDup_nodup|]. intros x. apply nodup_In.
Qed.

(** Sorting makes the order in which a set is listed irrelevant:
    [sorted(list(set(l)))] is the same list for every enumeration. *)
Lemma sorted_enumeration (l e : list string) :
  enumerates l e -> sorted e = sorted (set_list l).
Proof.
  intros [He Hin]. apply sorted_nodup_unique.
  - now apply sorted_sorted_nodup.
  - apply sorted_sorted_nodup, NoDup_nodup.
  - intros x. rewrite !in_sorted, Hin. unfold set_list. now rewrite nodup_In.
Qed.

Lemma ascendingb_sound (l : list string) : ascendingb l = true -> sorted_nodup l.
Proof.
  unfold sorted_nodup. induction l as [|x r IH]; intros H; [constructor|].
  destruct r as [|y r']; [constructor; constructor|].
  simpl in H. apply andb_prop in H. destruct H as [Hxy Hr].
  specialize (IH Hr). constructor; [exact IH|].
  inversion IH as [|? ? _ Hy]; subst.
  constructor; [exact Hxy|].
  rewrite Forall_forall in Hy |- *. intros z Hz.
  eapply str_lt_trans; [exact Hxy | auto].
Qed.

Lemma mem_In (x : string) (l : list string) : mem x l = true <-> In x l.
Proof.
  unfold mem. rewrite existsb_exists. split.
  - intros [y [Hy E]]. apply String.eqb_eq in E. now subst.
  - intros H. exists x. split; [exact H | apply String.eqb_refl].
Qed.

End Sorting.

(** ** Characters and tokens *)

Section Tokens.

Lemma upper_space (c : ascii) : (upper c =? " ")%char = (c =? " ")%char.
Proof. destruct c as [[] [] [] [] [] [] [] []]; reflexivity. Qed.

Lemma lower_space (c : ascii) : (lower c =? " ")%char = (c =? " ")%char.
Proof. destruct c as [[] [] [] [] [] [] [] []]; reflexivity. Qed.

Lemma contains_title_from (b : bool) (s : string) :
  contains " " (title_from b s) = contains " " s.
Proof.
  revert b. induction s as [|c s IH]; intros b; simpl; [reflexivity|].
  rewrite IH. destruct b; now rewrite ?upper_space, ?lower_space.
Qed.

Lemma split_on_nonempty (sep : ascii) (s : string) : split_on sep s <> [].
Proof.
  destruct s as [|c s]; simpl; [discriminate|].
  destruct (c =? sep)%char; [discriminate|].
  destruct (split_on sep s); discriminate.
Qed.

(** No field of [s.split(sep)] contains the separator. *)
Lemma split_on_no_sep (sep : ascii) (s w : string) :
  In w (split_on sep s) -> contains sep w = false.
Proof.
  revert w. induction s as [|c s IH]; intros w; simpl.
  - intros [<-|[]]. reflexivity.
  - destruct (c =? sep)%char eqn:E.
    + intros [<-|H]; [reflexivity | now apply IH].
    + destruct (split_on sep s) as [|v vs] eqn:Es.
      * intros [<-|[]]. simpl. now rewrite E.
      * intros [<-|H].
        -- simpl. rewrite E. apply IH. now left.
        -- apply IH. now right.
Qed.

Lemma in_candidates (x : string) (name_list : list string) :
  In x (flat_map (fun name => map title (split_on " " name)) name_list) <->
  exists name word,
    In name name_list /\ In word (split_on " " name) /\ x = title word.
Proof.
  rewrite in_flat_map. split.
  - intros [name [Hn Hx]]. apply in_map_iff in Hx.
    destruct Hx as [word [<- Hw]]. now exists name, word.
  - intros [name [word [Hn [Hw ->]]]]. exists name. split; [exact Hn|].
    now apply in_map.
Qed.

Lemma in_get_unique_names (x : string) (name_list to_remove : list string) :
  In x (get_unique_names name_list to_remove) <->
  (exists name word,
      In name name_list /\ In word (split_on " " name) /\ x = title word)
  /\ ~ In x to_remove.
Proof.
  unfold get_unique_names. rewrite filter_In, in_sorted.
  unfold set_list. rewrite nodup_In, in_candidates.
  rewrite negb_true_iff, <- not_true_iff_false, mem_In. tauto.
Qed.

Lemma get_unique_names_ascending (name_list to_remove : list string) :
  sorted_nodup (get_unique_names name_list to_remove).
Proof.
  unfold get_unique_names. apply sorted_nodup_filter, sorted_sorted_nodup.
  apply NoDup_nodup.
Qed.

Lemma get_unique_names_no_space (name_list to_remove : list string) (x : string) :
  In x (get_unique_names name_list to_remove) -> contains " " x = false.
Proof.
  rewrite in_get_unique_names. intros [[name [word [_ [Hw ->]]]] _].
  unfold title. rewrite contains_title_from. now apply split_on_no_sep in Hw.
Qed.

Lemma mem_without_spaced (x : string) (l : list string) :
  contains " " x = false ->
  mem x (filter (fun e => negb (contains " " e)) l) = mem x l.
Proof.
  intros Hx. unfold mem. induction l as [|e l IH]; simpl; [reflexivity|].
  destruct (contains " " e) eqn:He; simpl.
  - rewrite IH. destruct (String.eqb_spec x e) as [->|_]; [congruence|reflexivity].
  - now rewrite IH.
Qed.

End Tokens.

(** ** Compilation of the name list *)

(** C2, as worded: the result is the one obtained by splitting on whitespace.
    It is not: two adjacent spaces give the empty token. *)
Lemma compile_as_worded_differs :
  ~ (forall name_list to_remove,
        get_unique_names name_list to_remove
        = compile_as_worded name_list to_remove).
Proof.
  intros H. specialize (H ["a  b"] []). vm_compute in H. discriminate.
Qed.

(** An ascending list without repetition is determined by its elements: no
    other such list has the elements of the result of [get_unique_names]. *)
Lemma get_unique_names_determined (name_list to_remove l : list string) :
  sorted_nodup l ->
  (forall x, In x l <-> In x (get_unique_names name_list to_remove)) ->
  l = get_unique_names name_list to_remove.
Proof.
  intros Hl Hin. apply sorted_nodup_unique.
  - exact Hl.
  - apply get_unique_names_ascending.
  - exact Hin.
Qed.

(** C2, amended: [get_unique_names] returns exactly the ascending,
    duplicate-free list of the title-cased fields obtained by cutting every
    name at each single space character, less the fields that occur in the
    exclusion list: the result is ascending without repetition, and its
    elements are those fields. *)
Theorem get_unique_names_exact (name_list to_remove : list string) :
  sorted_nodup (get_unique_names name_list to_remove)
  /\ (forall x,
        In x (get_unique_names name_list to_remove) <->
        (exists name word,
            In name name_list /\ In word (split_on " " name) /\ x = title word)
        /\ ~ In x to_remove).
Proof.
  split; [apply get_unique_names_ascending|].
  intros x; apply in_get_unique_names.
Qed.

(** C3: no term of a compiled deny-list is a member of the exclusion set of
    its category: for [get_unique_names] whatever the list to remove is, and
    for every deny-list [run] builds. *)
Theorem exclusion_invariant :
  (forall name_list to_remove,
      Forall (fun t => ~ In t to_remove) (get_unique_names name_list to_remove))
  /\ (forall c name_list,
         Forall (fun t => ~ In t (exclusion_set c)) (deny_list c name_list)).
Proof.
  assert (H : forall name_list to_remove,
             Forall (fun t => ~ In t to_remove) (get_unique_names name_list to_remove)).
  { intros name_list to_remove. rewrite Forall_forall. intros t Ht.
    apply in_get_unique_names in Ht. tauto. }
  split; [exact H|].
  intros c name_list. destruct c; simpl exclusion_set.
  - apply H.
  - rewrite Forall_forall. intros t _ [].
  - rewrite Forall_forall. intros t _ [].
  - rewrite Forall_forall. intros t _ [].
Qed.

(** C10: no term of the result of [get_unique_names] contains a space, so
    the entries of the list to remove that contain one, like "Bye Bye" in the
    list of [run], remove nothing. *)
Theorem spaced_exclusions_inert (name_list to_remove : list string) :
  Forall (fun t => contains " " t = false) (get_unique_names name_list to_remove)
  /\ get_unique_names name_list (filter (fun e => negb (contains " " e)) to_remove)
     = get_unique_names name_list to_remove
  /\ get_unique_names name_list (List.remove string_dec "Bye Bye" remove_list)
     = get_unique_names name_list remove_list.
Proof.
  assert (H : forall l,
             get_unique_names name_list (filter (fun e => negb (contains " " e)) l)
             = get_unique_names name_list l).
  { intros l. unfold get_unique_names. apply filter_ext_in. intros x Hx.
    f_equal. apply mem_without_spaced.
    rewrite in_sorted in Hx. unfold set_list in Hx. rewrite nodup_In in Hx.
    apply in_candidates in Hx. destruct Hx as [name [word [_ [Hw ->]]]].
    unfold title. rewrite contains_title_from. now apply split_on_no_sep in Hw. }
  split; [|split].
  - rewrite Forall_forall. intros t. apply get_unique_names_no_space.
  - apply H.
  - rewrite <- (H remove_list). reflexivity.
Qed.

(** ** The location list *)

Section Locations.

Lemma length_insert (a : string) (l : list string) :
  List.length (insert a l) = S (List.length l).
Proof.
  induction l as [|y r IH]; simpl; [reflexivity|].
  destruct (String.leb a y); simpl; [reflexivity | now rewrite IH].
Qed.

Lemma length_sorted (l : list string) : List.length (sorted l) = List.length l.
Proof.
  induction l as [|a l IH]; simpl; [reflexivity|].
  now rewrite length_insert, IH.
Qed.

Lemma in_generate_location_list (x : string) (c s ci a : list string) :
  In x (generate_location_list c s ci a) <->
  exists item, In item (c ++ s ++ ci ++ a) /\ x = clean_location item.
Proof.
  unfold generate_location_list. rewrite in_map_iff. split.
  - intros [item [<- Hi]]. exists item. split; [|reflexivity].
    rewrite in_sorted in Hi. unfold set_list in Hi. now rewrite nodup_In in Hi.
  - intros [item [Hi ->]]. exists item. split; [reflexivity|].
    rewrite in_sorted. unfold set_list. now rewrite nodup_In.
Qed.

(** One entry for every distinct input term: terms are never cut, and
    never dropped. *)
Lemma length_generate_location_list (c s ci a : list string) :
  List.length (generate_location_list c s ci a)
  = List.length (set_list (c ++ s ++ ci ++ a)).
Proof.
  unfold generate_location_list. now rewrite length_map, length_sorted.
Qed.

(** *** Stripping of parentheticals *)

Lemma lazy_close_plain (body post : string) :
  plain_body body = true ->
  lazy_close (body ++ String ")" post) = Some (String.length body).
Proof.
  induction body as [|c r IH]; simpl; [reflexivity|].
  rewrite !andb_true_iff, !negb_true_iff. intros [[Hc Hn] Hr].
  now rewrite Hc, Hn, IH.
Qed.

Lemma sub_parens_from_skip (body s : string) (k : nat) :
  sub_parens_from (String.length body + k) (body ++ s) = sub_parens_from k s.
Proof.
  induction body as [|c r IH]; simpl; [reflexivity | exact IH].
Qed.

(** A parenthetical is dropped, and the scan goes on after it. *)
Lemma sub_parens_parenthetical (body post : string) :
  plain_body body = true ->
  sub_parens (String "(" (body ++ String ")" post)) = sub_parens post.
Proof.
  intros Hb. unfold sub_parens. simpl.
  rewrite (lazy_close_plain body post Hb).
  replace (S (String.length body)) with (String.length body + 1) by lia.
  rewrite sub_parens_from_skip. reflexivity.
Qed.

(** The text before the first opening parenthesis is kept. *)
Lemma sub_parens_prefix (pre s : string) :
  contains "(" pre = false -> sub_parens (pre ++ s) = pre ++ sub_parens s.
Proof.
  unfold sub_parens. induction pre as [|c r IH]; simpl; [reflexivity|].
  rewrite orb_false_iff. intros [Hc Hr]. rewrite Hc. now rewrite IH.
Qed.

(** *** Collapsing of whitespace and title case *)

Lemma isspace_upper (c : ascii) : isspace (upper c) = isspace c.
Proof. destruct c as [[] [] [] [] [] [] [] []]; reflexivity. Qed.

Lemma isspace_lower (c : ascii) : isspace (lower c) = isspace c.
Proof. destruct c as [[] [] [] [] [] [] [] []]; reflexivity. Qed.

Lemma split_words (s : string) : Forall (fun w => is_word w = true) (split s).
Proof.
  induction s as [|c r IH]; simpl; [constructor|].
  destruct (isspace c) eqn:Ec; [exact IH|].
  destruct (starts_word r).
  - destruct (split r) as [|w ws].
    + constructor; [|constructor]. simpl. now rewrite Ec.
    + inversion IH as [|? ? Hw Hws]; subst. constructor; [|exact Hws].
      simpl. rewrite Ec. simpl. destruct w; [discriminate | exact Hw].
  - constructor; [|exact IH]. simpl. now rewrite Ec.
Qed.

Lemma split_word_then_space (w r : string) :
  is_word w = true -> split (w ++ String " " r) = w :: split r.
Proof.
  induction w as [|c w IH]; [discriminate|].
  simpl. rewrite andb_true_iff, negb_true_iff. intros [Hc Hw].
  rewrite Hc. destruct w as [|d w]; [reflexivity|].
  assert (Hd : is_word (String d w) = true) by exact Hw.
  rewrite (IH Hd). simpl in Hw. apply andb_prop in Hw.
  destruct Hw as [Hd' _]. simpl. now rewrite Hd'.
Qed.

Lemma split_word (w : string) : is_word w = true -> split w = [w].
Proof.
  induction w as [|c w IH]; [discriminate|].
  simpl. rewrite andb_true_iff, negb_true_iff. intros [Hc Hw].
  rewrite Hc. destruct w as [|d w]; [reflexivity|].
  assert (Hd : is_word (String d w) = true) by exact Hw.
  rewrite (IH Hd). simpl in Hw. apply andb_prop in Hw.
  destruct Hw as [Hd' _]. simpl. now rewrite Hd'.
Qed.

(** Words joined by single spaces split back into the same words. *)
Lemma split_join (ws : list string) :
  Forall (fun w => is_word w = true) ws -> split (join " " ws) = ws.
Proof.
  unfold join. induction 1 as [|w ws Hw Hws IH]; [reflexivity|].
  destruct ws as [|v vs].
  - simpl. now apply split_word.
  - change (concat " " (w :: v :: vs)) with (w ++ String " " (concat " " (v :: vs))).
    rewrite (split_word_then_space _ _ Hw). now rewrite IH.
Qed.

Lemma title_from_then_space (w r : string) :
  forall b, title_from b (w ++ String " " r)
            = title_from b w ++ String " " (title_from false r).
Proof.
  induction w as [|c w IH]; intros b; simpl.
  - now destruct b.
  - now rewrite IH.
Qed.

(** Every word of a phrase is title-cased on its own. *)
Lemma title_join (ws : list string) :
  title (join " " ws) = join " " (map title ws).
Proof.
  unfold join, title. induction ws as [|w ws IH]; [reflexivity|].
  destruct ws as [|v vs]; [reflexivity|].
  change (concat " " (w :: v :: vs)) with (w ++ String " " (concat " " (v :: vs))).
  rewrite title_from_then_space, IH. reflexivity.
Qed.

Lemma no_space_title_from (w : string) :
  forall b, no_space (title_from b w) = no_space w.
Proof.
  induction w as [|c w IH]; intros b; simpl; [reflexivity|].
  rewrite IH. destruct b; now rewrite ?isspace_lower, ?isspace_upper.
Qed.

Lemma is_word_title (w : string) : is_word w = true -> is_word (title w) = true.
Proof.
  destruct w as [|c w]; [discriminate|]. intros H.
  change (no_space (title_from false (String c w)) = true).
  rewrite no_space_title_from. exact H.
Qed.

(** A cleaned term is the words of the stripped term, title-cased and
    joined by single spaces. *)
Lemma clean_location_words (item : string) :
  clean_location item = join " " (map title (split (sub_parens item)))
  /\ split (clean_location item) = map title (split (sub_parens item)).
Proof.
  unfold clean_location. rewrite title_join. split; [reflexivity|].
  apply split_join. rewrite Forall_map.
  eapply Forall_impl; [|apply split_words].
  intros w. apply is_word_title.
Qed.

(** The list is in the order of the raw terms, which cleaning does not
    keep: in general it is neither ascending nor free of repetitions. *)
Lemma generate_location_list_not_ascending :
  generate_location_list ["b"; "C"] [] [] [] = ["C"; "B"].
Proof. reflexivity. Qed.

Lemma generate_location_list_repeats :
  generate_location_list ["Cocos Islands"; "Cocos (Keeling) Islands"] [] [] []
  = ["Cocos Islands"; "Cocos Islands"].
Proof. reflexivity. Qed.

End Locations.

(** C4: a place name of several words stays one entry of the location list,
    parentheticals stripped and whitespace collapsed, while the name list
    holds one entry per word.  The entries of the location list are the
    cleaned input terms, and a cleaned term is the title-cased words of the
    stripped term joined by single spaces; a location list built from
    "New York" contains "New York", and a name list built from "John Smith"
    and "Jane Smith" contains "Jane", "John" and "Smith" and neither full
    name. *)
Theorem tokenization_asymmetry (c s ci a name_list : list string) :
  In "New York" (c ++ s ++ ci ++ a) ->
  In "John Smith" name_list ->
  In "Jane Smith" name_list ->
  (In "New York" (generate_location_list c s ci a)
   /\ forall x, In x (generate_location_list c s ci a) <->
                exists item, In item (c ++ s ++ ci ++ a) /\ x = clean_location item)
  /\ (In "Jane" (get_unique_names name_list [])
      /\ In "John" (get_unique_names name_list [])
      /\ In "Smith" (get_unique_names name_list [])
      /\ ~ In "John Smith" (get_unique_names name_list [])
      /\ ~ In "Jane Smith" (get_unique_names name_list []))
  /\ generate_location_list ["New York"] [] [] [] = ["New York"]
  /\ get_unique_names ["John Smith"; "Jane Smith"] [] = ["Jane"; "John"; "Smith"]
  /\ clean_location "Cocos (Keeling) Islands" = "Cocos Islands"
  /\ forall item,
      clean_location item = join " " (map title (split (sub_parens item)))
      /\ split (clean_location item) = map title (split (sub_parens item)).
Proof.
  intros Hny Hjohn Hjane.
  assert (Hword : forall name word,
             In name name_list -> In word (split_on " " name) ->
             In (title word) (get_unique_names name_list [])).
  { intros name word Hn Hw. apply in_get_unique_names. split; [|intros []].
    now exists name, word. }
  assert (Hfull : forall x, contains " " x = true ->
                            ~ In x (get_unique_names name_list [])).
  { intros x Hx Hin. apply get_unique_names_no_space in Hin. congruence. }
  split; [split|split; [|split; [|split; [|split]]]];
    try reflexivity; try apply clean_location_words.
  - apply in_generate_location_list. now exists "New York".
  - intros x. apply in_generate_location_list.
  - repeat split.
    + apply (Hword "Jane Smith" "Jane"); [exact Hjane | simpl; auto].
    + apply (Hword "John Smith" "John"); [exact Hjohn | simpl; auto].
    + apply (Hword "John Smith" "Smith"); [exact Hjohn | simpl; auto].
    + now apply Hfull.
    + now apply Hfull.
Qed.

Lemma tokenization_asymmetry_witness :
  In "New York" (generate_location_list ["Canada"] ["Nevada"; "New York"] ["York"] [])
  /\ In "Smith" (get_unique_names ["John Smith"; "Jane Smith"] []).
Proof.
  pose proof (tokenization_asymmetry
                ["Canada"] ["Nevada"; "New York"] ["York"] []
                ["John Smith"; "Jane Smith"]) as H.
  destruct H as [[Hloc _] [[_ [_ [Hsmith _]]] _]].
  - simpl. auto.
  - simpl. auto.
  - simpl. auto.
  - split; [exact Hloc | exact Hsmith].
Defined.

(** C9, as worded: a term that cleaning leaves empty is not in the list.
    It is: nothing filters the cleaned terms. *)
Lemma empty_location_kept :
  ~ (forall c s ci a item,
        In item (c ++ s ++ ci ++ a) -> clean_location item = "" ->
        ~ In (clean_location item) (generate_location_list c s ci a)).
Proof.
  intros H. apply (H ["(Keeling)"] [] [] [] "(Keeling)").
  - simpl. auto.
  - reflexivity.
  - simpl. auto.
Qed.

(** C9, amended: a term that is empty after its parentheticals are stripped
    and its whitespace collapsed stays in the location list, as the empty
    string. *)
Theorem empty_location_is_entry (c s ci a : list string) (item : string) :
  In item (c ++ s ++ ci ++ a) ->
  clean_location item = "" ->
  In "" (generate_location_list c s ci a).
Proof.
  intros Hi He. apply in_generate_location_list. exists item. now split.
Qed.

Lemma empty_location_is_entry_witness :
  In "" (generate_location_list ["Canada"; "(Keeling)"] [] [] []).
Proof.
  apply (empty_location_is_entry ["Canada"; "(Keeling)"] [] [] [] "(Keeling)").
  - simpl. auto.
  - reflexivity.
Defined.

(** ** The deny-lists of [run] *)

Lemma nodup_fixpoint_NoDup (l : list string) : nodup string_dec l = l -> NoDup l.
Proof. intros <-. apply NoDup_nodup. Qed.

(** C5, as worded: every deny-list is ascending without repetition.  The
    date and time list is the months, then the weekdays, then the times. *)
Lemma deny_list_not_all_ascending :
  ~ (forall c name_list, sorted_nodup (deny_list c name_list)).
Proof.
  intros H. specialize (H DATE_TIME []).
  unfold sorted_nodup in H. apply StronglySorted_inv in H.
  destruct H as [_ H]. apply Forall_inv in H.
  vm_compute in H. discriminate.
Qed.

(** C5, amended: for every input the name list is ascending without
    repetition and the list of e-mail labels has no repetition; with the
    tables of [run] the location list is ascending without repetition and
    the date and time list has no repetition. *)
Theorem deny_lists_ordering :
  (forall name_list to_remove, sorted_nodup (get_unique_names name_list to_remove))
  /\ (forall domains, NoDup (get_email_list domains))
  /\ (forall name_list, sorted_nodup (deny_list LOCATION name_list))
  /\ (forall name_list, NoDup (deny_list DATE_TIME name_list)).
Proof.
  split; [apply get_unique_names_ascending|].
  split; [intros domains; apply NoDup_nodup|].
  split; intros name_list.
  - apply ascendingb_sound. vm_compute. reflexivity.
  - apply nodup_fixpoint_NoDup. vm_compute. reflexivity.
Qed.

(** C6, as worded: every month name is in the date and time list.  "May"
    is not. *)
Lemma may_not_listed :
  ~ (forall name_list m, In m month_names -> In m (deny_list DATE_TIME name_list)).
Proof.
  intros H. specialize (H [] "May").
  assert (Hm : mem "May" (deny_list DATE_TIME []) = true).
  { apply mem_In. apply H. simpl. auto 10. }
  vm_compute in Hm. discriminate.
Qed.

(** C6, amended: the date and time list of [run] consists exactly of the
    names of the months other than "May", the names of the weekdays, and
    "Noon" and "Midnight". *)
Theorem datetime_list_exact (name_list : list string) (t : string) :
  In t (deny_list DATE_TIME name_list) <->
  (In t month_names /\ t <> "May") \/ In t weekday_names
  \/ t = "Noon" \/ t = "Midnight".
Proof.
  assert (E : deny_list DATE_TIME name_list
              = (filter (fun m => negb (String.eqb m "May")) month_names
                   ++ weekday_names ++ ["Noon"; "Midnight"])%list) by reflexivity.
  rewrite E, !in_app_iff, filter_In, negb_true_iff, String.eqb_neq.
  simpl. intuition.
Qed.

(** ** The single character pattern *)

Section SingleChar.

Import Regex.

Lemma next_is_get (a : ascii) (r : string) :
  next_is a r = true <-> get 0 r = Some a.
Proof.
  destruct r as [|d r]; simpl; [split; discriminate|].
  rewrite Ascii.eqb_eq. split; congruence.
Qed.

(** The spans found from offset [off] on: the one-character spans at the
    positions where the class, the character before and the character
    after all fit. *)
Lemma in_finditer_from (p : pattern) (s : string) :
  forall (prev : option ascii) (off i j : nat),
    In (i, j) (finditer_from p prev off s) <->
    j = S i /\
    exists k c,
      i = off + k /\ get k s = Some c
      /\ prev_is (lookbehind p) (match k with O => prev | S k' => get k' s end) = true
      /\ in_class (char_class p) c = true
      /\ get (S k) s = Some (lookahead p).
Proof.
  induction s as [|c r IH]; intros prev off i j.
  - simpl. split; [intros [] | intros [_ [k [d [_ [H _]]]]]].
    destruct k; discriminate.
  - assert (Htail :
      In (i, j) (finditer_from p (Some c) (S off) r) <->
      j = S i /\
      exists k d,
        i = off + S k /\ get (S k) (String c r) = Some d
        /\ prev_is (lookbehind p) (get k (String c r)) = true
        /\ in_class (char_class p) d = true
        /\ get (S (S k)) (String c r) = Some (lookahead p)).
    { rewrite IH. split; intros [Hj [k [d [Hi [Hd [Hp [Hc Hn]]]]]]];
        (split; [exact Hj|]); exists k, d; simpl in *;
        (split; [lia|]); (split; [exact Hd|]);
        (split; [|split; [exact Hc | exact Hn]]);
        destruct k; exact Hp. }
    assert (Hhead :
      matches_here p prev c r = true <->
      prev_is (lookbehind p) prev = true /\ in_class (char_class p) c = true
      /\ get 1 (String c r) = Some (lookahead p)).
    { unfold matches_here. rewrite !andb_true_iff, next_is_get. simpl. tauto. }
    split.
    + intros Hin.
      assert (Hcases : ((i, j) = (off, S off) /\ matches_here p prev c r = true)
                       \/ In (i, j) (finditer_from p (Some c) (S off) r)).
      { simpl in Hin. destruct (matches_here p prev c r).
        - destruct Hin as [E|H]; [left; split; congruence | now right].
        - now right. }
      destruct Hcases as [[E Hm]|Ht].
      * inversion E; subst. split; [reflexivity|].
        apply Hhead in Hm. destruct Hm as [Hp [Hc Hn]].
        exists 0, c. repeat split; auto.
      * apply Htail in Ht. destruct Ht as [Hj [k [d H]]].
        split; [exact Hj|]. exists (S k), d. exact H.
    + intros [Hj [k [d [Hi [Hd [Hp [Hc Hn]]]]]]]. destruct k as [|k].
      * simpl in Hd. inversion Hd; subst d.
        assert (Hm : matches_here p prev c r = true) by (apply Hhead; auto).
        simpl. rewrite Hm. left. f_equal; lia.
      * assert (Ht : In (i, j) (finditer_from p (Some c) (S off) r)).
        { apply Htail. split; [exact Hj|]. exists k, d. auto. }
        simpl. destruct (matches_here p prev c r); [now right | exact Ht].
Qed.

Lemma substring_one (s : string) :
  forall i c, get i s = Some c -> substring i 1 s = String c EmptyString.
Proof.
  induction s as [|d r IH]; intros i c; destruct i; simpl; try discriminate.
  - intros H. inversion H; subst. now destruct r.
  - apply IH.
Qed.

End SingleChar.

(** C7, as worded: on "A B C" there is a match for "B" and a match for "C"
    and none for "A".  No space follows "C", so "C" is not matched. *)
Lemma last_letter_unmatched :
  ~ ((exists sp, In sp (single_char_matches "A B C") /\ span_text "A B C" sp = "B")
     /\ (exists sp, In sp (single_char_matches "A B C") /\ span_text "A B C" sp = "C")
     /\ ~ (exists sp, In sp (single_char_matches "A B C") /\ span_text "A B C" sp = "A")).
Proof.
  intros [_ [[sp [Hin Hc]] _]].
  vm_compute in Hin. destruct Hin as [<-|[]].
  vm_compute in Hc. discriminate.
Qed.

(** C7, amended: the pattern matches exactly the single characters of
    [B-H] or [J-Z] that have a space character right before them and a space
    character right after them; "A" and "I" are never matched; on "A B C" the
    only match is "B". *)
Theorem single_char_rule (text : string) :
  (forall i j,
      In (i, j) (single_char_matches text) <->
      j = S i /\
      exists k c,
        i = S k /\ get k text = Some " "%char /\ get i text = Some c
        /\ (in_range "B" "H" c || in_range "J" "Z" c) = true
        /\ get (S i) text = Some " "%char)
  /\ Forall (fun sp => span_text text sp <> "A" /\ span_text text sp <> "I")
            (single_char_matches text)
  /\ single_char_matches "A B C" = [(2, 3)]
  /\ span_text "A B C" (2, 3) = "B".
Proof.
  assert (Hiff : forall i j,
      In (i, j) (single_char_matches text) <->
      j = S i /\
      exists k c,
        i = S k /\ get k text = Some " "%char /\ get i text = Some c
        /\ (in_range "B" "H" c || in_range "J" "Z" c) = true
        /\ get (S i) text = Some " "%char).
  { intros i j. unfold single_char_matches, Regex.finditer.
    rewrite in_finditer_from. simpl.
    split; intros [Hj H]; (split; [exact Hj|]).
    - destruct H as [k [c [Hi [Hc [Hp [Hcl Hn]]]]]]. simpl in Hi. subst k.
      destruct i as [|k]; [discriminate|].
      exists k, c. split; [reflexivity|].
      split.
      { simpl in Hp. destruct (get k text) as [d|]; [|discriminate].
        apply Ascii.eqb_eq in Hp. now subst. }
      split; [exact Hc|]. split; [|exact Hn].
      now rewrite orb_false_r in Hcl.
    - destruct H as [k [c [Hi [Hk [Hc [Hcl Hn]]]]]]. subst i.
      exists (S k), c. split; [reflexivity|]. split; [exact Hc|].
      split; [rewrite Hk; reflexivity|].
      split; [|exact Hn]. now rewrite orb_false_r. }
  split; [exact Hiff|]. split; [|split; reflexivity].
  rewrite Forall_forall. intros [i j] Hin.
  apply Hiff in Hin. destruct Hin as [-> [k [c [_ [_ [Hc [Hcl _]]]]]]].
  unfold span_text. simpl fst. simpl snd.
  replace (S i - i) with 1 by lia.
  rewrite (substring_one text i c Hc).
  split; intros E; inversion E; subst c; vm_compute in Hcl; discriminate.
Qed.

(** ** Corpus processing *)

Section Corpus.

Lemma series_gt_spec (column : list cell) (top_n : Z) :
  series_gt column top_n
  = if existsb is_text column then Raise TypeError
    else Ok (map (exceeds top_n) column).
Proof.
  induction column as [|x r IH]; simpl; [reflexivity|].
  destruct x as [z| |t]; simpl; try reflexivity;
    rewrite IH; destruct (existsb is_text r); reflexivity.
Qed.

Lemma select_map {A : Type} (f : A -> bool) (data : list A) :
  select data (map f data) = filter f data.
Proof.
  induction data as [|row d IH]; simpl; [reflexivity|].
  rewrite IH. reflexivity.
Qed.

Lemma process_name_txt_files_spec (files : list (list txt_row)) (top_n : Z) :
  forall name_list,
    process_name_txt_files files name_list top_n
    = if existsb (fun data => existsb is_text (map Number data)) files
      then Raise TypeError
      else Ok (name_list ++ flat_map (frequent_txt top_n) files)%list.
Proof.
  induction files as [|data rest IH]; intros name_list; simpl.
  - now rewrite app_nil_r.
  - rewrite series_gt_spec.
    destruct (existsb is_text (map Number data)); simpl; [reflexivity|].
    rewrite IH. destruct (existsb _ rest); [reflexivity|].
    rewrite <- app_assoc. unfold frequent_txt at 2.
    now rewrite map_map, select_map.
Qed.

Lemma process_name_csv_files_spec (unidecode : string -> string)
      (files : list (list csv_row)) (top_n : Z) :
  forall name_list,
    process_name_csv_files unidecode files name_list top_n
    = if existsb (fun data => existsb is_text (map col1 data)) files
      then Raise TypeError
      else Ok (name_list
                 ++ flat_map (fun data => map unidecode (frequent_csv top_n data)) files)%list.
Proof.
  induction files as [|data rest IH]; intros name_list; simpl.
  - now rewrite app_nil_r.
  - rewrite series_gt_spec.
    destruct (existsb is_text (map col1 data)); simpl; [reflexivity|].
    rewrite IH. destruct (existsb _ rest); [reflexivity|].
    rewrite <- app_assoc. unfold frequent_csv at 2.
    now rewrite map_map, select_map.
Qed.

End Corpus.

(** C8, as worded: the terms of the rows over the threshold are appended and
    no error is raised, also when a frequency is not a number.  A frequency
    that is text makes the comparison raise. *)
Lemma text_frequency_raises :
  ~ (forall files name_list top_n,
        process_name_txt_files files name_list top_n
        = Ok (name_list ++ flat_map (frequent_txt top_n) files)%list).
Proof.
  intros H.
  specialize (H [[ {| Name := "Mary"; Gender := "F"; Number := Num 7065 |};
                   {| Name := "Anna"; Gender := "F"; Number := Str "many" |} ]]
                [] default_top_n).
  vm_compute in H. discriminate.
Qed.

(** C8, amended: when every frequency field is a number or absent, both
    functions return the list extended by exactly the terms of the rows whose
    frequency is strictly greater than [top_n], in order (for the [.csv]
    files the transliterated terms, rows without a term left out), so that a
    row with an absent frequency adds nothing and raises nothing; when a
    frequency field is text that is not a number they raise [TypeError]. *)
Theorem corpus_threshold (unidecode : string -> string)
        (txt_files : list (list txt_row)) (csv_files : list (list csv_row))
        (name_list : list string) (top_n : Z) :
  process_name_txt_files txt_files name_list top_n
  = (if existsb (fun data => existsb is_text (map Number data)) txt_files
     then Raise TypeError
     else Ok (name_list ++ flat_map (frequent_txt top_n) txt_files)%list)
  /\ process_name_csv_files unidecode csv_files name_list top_n
     = (if existsb (fun data => existsb is_text (map col1 data)) csv_files
        then Raise TypeError
        else Ok (name_list
                   ++ flat_map (fun data => map unidecode (frequent_csv top_n data))
                        csv_files)%list).
Proof.
  split.
  - apply process_name_txt_files_spec.
  - apply process_name_csv_files_spec.
Qed.

(** A row counts only when its frequency is a number above the threshold. *)
Lemma in_frequent_txt (top_n : Z) (data : list txt_row) (name : string) :
  In name (frequent_txt top_n data) <->
  exists row z, In row data /\ Name row = name /\ Number row = Num z /\ (top_n < z)%Z.
Proof.
  unfold frequent_txt. rewrite in_map_iff. split.
  - intros [row [Hn Hr]]. apply filter_In in Hr. destruct Hr as [Hr He].
    destruct (Number row) as [z| |t] eqn:E; try discriminate.
    exists row, z. simpl in He. apply Z.ltb_lt in He. auto.
  - intros [row [z [Hr [Hn [E Hz]]]]]. exists row. split; [exact Hn|].
    apply filter_In. split; [exact Hr|]. rewrite E. simpl. now apply Z.ltb_lt.
Qed.


(** * Further properties *)

(** ** Title case *)

Section TitleCase.







Lemma upper_dot (c : ascii) : (upper c =? ".")%char = (c =? ".")%char.
Proof. destruct c as [[] [] [] [] [] [] [] []]; reflexivity. Qed.

Lemma lower_dot (c : ascii) : (lower c =? ".")%char = (c =? ".")%char.
Proof. destruct c as [[] [] [] [] [] [] [] []]; reflexivity. Qed.

Lemma contains_dot_title_from (b : bool) (s : string) :
  contains "." (title_from b s) = contains "." s.
Proof.
  revert b. induction s as [|c s IH]; intros b; simpl; [reflexivity|].
  rewrite IH. destruct b; now rewrite ?upper_dot, ?lower_dot.
Qed.

Lemma length_title_from (s : string) :
  forall b, String.length (title_from b s) = String.length s.
Proof.
  induction s as [|c r IH]; intros b; simpl; [reflexivity | now rewrite IH].
Qed.

End TitleCase.

(** ** Fields *)

Section Fields.


(** X1: [sep.join(s.split(sep))] is [s]: cutting a string at a separator
    loses nothing but the separators. *)
Theorem split_on_join (sep : ascii) (s : string) :
  join (String sep EmptyString) (split_on sep s) = s.
Proof.
  unfold join. induction s as [|c r IH]; [reflexivity|].
  simpl split_on. destruct (Ascii.eqb_spec c sep) as [->|Hne].
  - destruct (split_on sep r) as [|w ws] eqn:E.
    + now apply split_on_nonempty in E.
    + change (concat (String sep "") ("" :: w :: ws))
        with (String sep (concat (String sep "") (w :: ws))).
      now rewrite IH.
  - destruct (split_on sep r) as [|w ws] eqn:E.
    + now apply split_on_nonempty in E.
    + destruct ws as [|v vs].
      * simpl in *. now rewrite IH.
      * change (concat (String sep "") (String c w :: v :: vs))
          with (String c (concat (String sep "") (w :: v :: vs))).
        now rewrite IH.
Qed.

(** X2: a string has one field more than it has separators; the empty string
    has the one empty field. *)
Theorem split_on_length (sep : ascii) (s : string) :
  List.length (split_on sep s) = S (count_char sep s).
Proof.
  induction s as [|c r IH]; [reflexivity|].
  simpl. destruct (c =? sep)%char; simpl.
  - now rewrite IH.
  - destruct (split_on sep r) as [|w ws] eqn:E.
    + now apply split_on_nonempty in E.
    + simpl in *. exact IH.
Qed.

End Fields.

(** ** The name list, further *)

Section NameList.



(** X4: the result depends on the names and on the terms to remove as sets:
    neither the order nor the repetitions of either list matter. *)
Theorem get_unique_names_set (names1 names2 remove1 remove2 : list string) :
  (forall x, In x names1 <-> In x names2) ->
  (forall x, In x remove1 <-> In x remove2) ->
  get_unique_names names1 remove1 = get_unique_names names2 remove2.
Proof.
  intros Hn Hr. apply get_unique_names_determined; [apply get_unique_names_ascending|].
  intros x. rewrite !in_get_unique_names, Hr. split.
  - intros [[name [word [H1 H2]]] H3]. split; [|exact H3].
    exists name, word. now rewrite <- Hn.
  - intros [[name [word [H1 H2]]] H3]. split; [|exact H3].
    exists name, word. now rewrite Hn.
Qed.

Lemma get_unique_names_set_witness :
  get_unique_names ["Jane Smith"; "John Smith"; "Jane Smith"] ["You"; "Job"]
  = get_unique_names ["John Smith"; "Jane Smith"] ["Job"; "You"; "Job"].
Proof.
  apply get_unique_names_set; intros x; simpl; tauto.
Defined.

(** X5: the result does not depend on the order in which Python lists the
    set of candidates: sorting any enumeration of it gives the same list. *)
Theorem get_unique_names_any_set_order (name_list to_remove e : list string) :
  enumerates (flat_map (fun name => map title (split_on " " name)) name_list) e ->
  filter (fun name => negb (mem name to_remove)) (sorted e)
  = get_unique_names name_list to_remove.
Proof.
  intros He. unfold get_unique_names. now rewrite (sorted_enumeration _ _ He).
Qed.

Lemma get_unique_names_any_set_order_witness :
  filter (fun name => negb (mem name ["Job"])) (sorted ["Smith"; "John"; "Job"; "Jane"])
  = get_unique_names ["John Smith"; "Jane Smith"; "job"] ["Job"].
Proof.
  apply (get_unique_names_any_set_order
           ["John Smith"; "Jane Smith"; "job"] ["Job"] ["Smith"; "John"; "Job"; "Jane"]).
  split.
  - apply nodup_fixpoint_NoDup. reflexivity.
  - intros x. simpl. tauto.
Defined.



End NameList.

(** ** The location list, further *)

Section LocationList.

(** X7: the location list depends on the terms of the four lists together, as
    a set: in which list a term stands, in which order and how often does not
    matter. *)
Theorem generate_location_list_set (c s ci a c' s' ci' a' : list string) :
  (forall x, In x (c ++ s ++ ci ++ a) <-> In x (c' ++ s' ++ ci' ++ a')) ->
  generate_location_list c s ci a = generate_location_list c' s' ci' a'.
Proof.
  intros H. unfold generate_location_list. f_equal.
  apply sorted_nodup_unique.
  - apply sorted_sorted_nodup, NoDup_nodup.
  - apply sorted_sorted_nodup, NoDup_nodup.
  - intros x. rewrite !in_sorted. unfold set_list. now rewrite !nodup_In.
Qed.

Lemma generate_location_list_set_witness :
  generate_location_list ["Georgia"; "Jordan"] ["Georgia"] ["York"] []
  = generate_location_list [] ["York"] [] ["Jordan"; "Georgia"].
Proof.
  apply generate_location_list_set. intros x. simpl. tauto.
Defined.

(** X8: when cleaning changes none of the terms, the location list is the
    ascending list of the distinct terms. *)
Theorem generate_location_list_clean_input (c s ci a : list string) :
  Forall (fun t => clean_location t = t) (c ++ s ++ ci ++ a) ->
  generate_location_list c s ci a = sorted (set_list (c ++ s ++ ci ++ a))
  /\ sorted_nodup (generate_location_list c s ci a).
Proof.
  intros H.
  assert (E : generate_location_list c s ci a = sorted (set_list (c ++ s ++ ci ++ a))).
  { unfold generate_location_list. rewrite <- (map_id (sorted _)) at 2.
    apply map_ext_in. intros t Ht. rewrite in_sorted in Ht.
    unfold set_list in Ht. rewrite nodup_In in Ht.
    rewrite Forall_forall in H. now apply H. }
  split; [exact E|]. rewrite E. apply sorted_sorted_nodup, NoDup_nodup.
Qed.

Lemma generate_location_list_clean_input_witness :
  generate_location_list ["Jordan"; "Canada"] [] ["New York"; "Jordan"] []
  = ["Canada"; "Jordan"; "New York"].
Proof.
  destruct (generate_location_list_clean_input
              ["Jordan"; "Canada"] [] ["New York"; "Jordan"] []) as [E _].
  - repeat constructor.
  - rewrite E. reflexivity.
Defined.


End LocationList.

(** ** The list of e-mail labels *)

Section EmailList.

(** X10: the e-mail list holds the title-cased first labels of the domains,
    each once: no entry contains a dot, and there are at most as many entries
    as domains. *)
Theorem get_email_list_labels (email_domains : list string) :
  (forall x, In x (get_email_list email_domains) <->
             exists domain, In domain email_domains
                            /\ x = title (hd EmptyString (split_on "." domain)))
  /\ Forall (fun t => contains "." t = false) (get_email_list email_domains)
  /\ List.length (get_email_list email_domains) <= List.length email_domains.
Proof.
  assert (Hin : forall x, In x (get_email_list email_domains) <->
             exists domain, In domain email_domains
                            /\ x = title (hd EmptyString (split_on "." domain))).
  { intros x. unfold get_email_list, set_list, email_labels.
    rewrite nodup_In, in_map_iff. split; intros [d [H1 H2]]; exists d; auto. }
  split; [exact Hin|]. split.
  - rewrite Forall_forall. intros t Ht. apply Hin in Ht.
    destruct Ht as [domain [_ ->]]. unfold title.
    rewrite contains_dot_title_from. apply (split_on_no_sep "." domain).
    destruct (split_on "." domain) as [|w ws] eqn:E.
    + now apply split_on_nonempty in E.
    + now left.
  - unfold get_email_list, set_list.
    rewrite <- (length_map (fun domain => title (hd EmptyString (split_on "." domain)))
                  email_domains).
    apply NoDup_incl_length; [apply NoDup_nodup|].
    intros x Hx. now rewrite nodup_In in Hx.
Qed.

End EmailList.

(** ** Corpus processing, further *)

Section CorpusFurther.

Variable unidecode : string -> string.

(** X11: processing the files of a folder one after the other is processing a
    first part of them and then, when that did not raise, the rest from the
    list reached so far. *)
Theorem process_files_sequence
        (txt1 txt2 : list (list txt_row)) (csv1 csv2 : list (list csv_row))
        (name_list : list string) (top_n : Z) :
  process_name_txt_files (txt1 ++ txt2) name_list top_n
  = (l <- process_name_txt_files txt1 name_list top_n ;;
     process_name_txt_files txt2 l top_n)
  /\ process_name_csv_files unidecode (csv1 ++ csv2) name_list top_n
     = (l <- process_name_csv_files unidecode csv1 name_list top_n ;;
        process_name_csv_files unidecode csv2 l top_n).
Proof.
  split.
  - revert name_list. induction txt1 as [|data rest IH]; intros name_list; simpl.
    + reflexivity.
    + destruct (series_gt (map Number data) top_n) as [mask|e]; simpl;
        [apply IH | reflexivity].
  - revert name_list. induction csv1 as [|data rest IH]; intros name_list; simpl.
    + reflexivity.
    + destruct (series_gt (map col1 data) top_n) as [mask|e]; simpl;
        [apply IH | reflexivity].
Qed.

(** X12: a list that is returned starts with the list that was passed in, and
    whether the functions raise depends on the files alone, not on the
    threshold or on the list passed in. *)
Theorem process_txt_extends (files : list (list txt_row))
        (name_list l : list string) (top_n : Z) :
  process_name_txt_files files name_list top_n = Ok l ->
  (exists added, l = name_list ++ added)%list
  /\ forall name_list' top_n',
      exists l', process_name_txt_files files name_list' top_n' = Ok l'.
Proof.
  rewrite process_name_txt_files_spec.
  destruct (existsb _ files) eqn:E; [discriminate|].
  intros H. inversion H; subst. split.
  - eexists. reflexivity.
  - intros name_list' top_n'. rewrite process_name_txt_files_spec, E.
    eexists. reflexivity.
Qed.

Lemma process_txt_extends_witness :
  exists added,
    ["Maryellen"; "Mary"] = (["Maryellen"] ++ added)%list.
Proof.
  refine (proj1 (process_txt_extends
            [[ {| Name := "Mary"; Gender := "F"; Number := Num 7065 |};
               {| Name := "Zula"; Gender := "F"; Number := NaN |} ]]
            ["Maryellen"] ["Maryellen"; "Mary"] 1000 _)).
  reflexivity.
Defined.

(** X13: a higher threshold never adds a name: what is returned for the
    higher threshold is contained in what is returned for the lower one. *)
Theorem process_txt_threshold_monotone (files : list (list txt_row))
        (name_list l1 l2 : list string) (t1 t2 : Z) :
  (t1 <= t2)%Z ->
  process_name_txt_files files name_list t1 = Ok l1 ->
  process_name_txt_files files name_list t2 = Ok l2 ->
  incl l2 l1.
Proof.
  intros Ht. rewrite !process_name_txt_files_spec.
  destruct (existsb _ files); [discriminate|].
  intros H1 H2. inversion H1; inversion H2; subst. clear H1 H2.
  intros x. rewrite !in_app_iff, !in_flat_map.
  intros [H|[data [Hd Hx]]]; [now left|]. right. exists data. split; [exact Hd|].
  apply in_frequent_txt in Hx. apply in_frequent_txt.
  destruct Hx as [row [z [Hr [Hn [Hz Hlt]]]]].
  exists row, z. repeat split; auto. lia.
Qed.

Lemma process_txt_threshold_monotone_witness :
  incl ["Mary"] ["Mary"; "Zula"].
Proof.
  apply (process_txt_threshold_monotone
           [[ {| Name := "Mary"; Gender := "F"; Number := Num 7065 |};
              {| Name := "Zula"; Gender := "F"; Number := Num 1500 |} ]]
           [] ["Mary"; "Zula"] ["Mary"] 1000 2000).
  - lia.
  - reflexivity.
  - reflexivity.
Defined.

(** X14: the threshold is exclusive: files in which every frequency is
    absent or at most [top_n] leave the list as it was. *)
Theorem process_txt_nothing_frequent (files : list (list txt_row))
        (name_list : list string) (top_n : Z) :
  Forall (Forall (fun row => match Number row with
                             | Num z => (z <= top_n)%Z
                             | NaN => True
                             | Str _ => False
                             end)) files ->
  process_name_txt_files files name_list top_n = Ok name_list.
Proof.
  intros H. revert name_list.
  induction H as [|data rest Hd _ IH]; intros name_list; simpl; [reflexivity|].
  assert (E : series_gt (map Number data) top_n = Ok (map (fun _ => false) data)).
  { clear IH. induction Hd as [|row d Hrow _ IHd]; simpl; [reflexivity|].
    rewrite IHd. destruct (Number row) as [z| |t]; simpl.
    - apply Z.ltb_ge in Hrow. now rewrite Hrow.
    - reflexivity.
    - contradiction. }
  rewrite E. simpl. rewrite select_map.
  assert (F : filter (fun _ : txt_row => false) data = []).
  { clear. induction data; simpl; auto. }
  rewrite F. simpl. rewrite app_nil_r. apply IH.
Qed.

Lemma process_txt_nothing_frequent_witness :
  process_name_txt_files
    [[ {| Name := "Zula"; Gender := "F"; Number := Num 1000 |};
       {| Name := "Ola"; Gender := "F"; Number := NaN |} ]] ["Maryellen"] 1000
  = Ok ["Maryellen"].
Proof.
  apply process_txt_nothing_frequent.
  repeat constructor. simpl. lia.
Defined.

(** X15: the name list of [run] is the frequent names of the [.txt] files,
    then the transliterated frequent names of the [.csv] files, then the four
    added names; a frequency that is text, in either corpus, makes it raise. *)
Theorem run_name_list_order
        (ssa_names : list (list txt_row)) (hispanic_names : list (list csv_row)) :
  run_name_list unidecode ssa_names hispanic_names
  = if existsb (fun data => existsb is_text (map Number data)) ssa_names
       || existsb (fun data => existsb is_text (map col1 data)) hispanic_names
    then Raise TypeError
    else Ok (flat_map (frequent_txt 1000) ssa_names
               ++ flat_map (fun data => map unidecode (frequent_csv 1000 data))
                    hispanic_names
               ++ additional_names)%list.
Proof.
  unfold run_name_list, default_top_n.
  rewrite process_name_txt_files_spec.
  destruct (existsb _ ssa_names); simpl; [reflexivity|].
  rewrite process_name_csv_files_spec.
  destruct (existsb _ hispanic_names); simpl; [reflexivity|].
  now rewrite <- app_assoc.
Qed.

(** X16: whatever the corpora hold, when [run] gets its name list the four
    added names are in the deny-list for PERSON. *)
Theorem additional_names_listed
        (ssa_names : list (list txt_row)) (hispanic_names : list (list csv_row))
        (name_list : list string) :
  run_name_list unidecode ssa_names hispanic_names = Ok name_list ->
  Forall (fun name => In name (deny_list PERSON name_list)) additional_names.
Proof.
  unfold run_name_list. rewrite process_name_txt_files_spec.
  destruct (existsb _ ssa_names); simpl; [discriminate|].
  rewrite process_name_csv_files_spec.
  destruct (existsb _ hispanic_names); simpl; [discriminate|].
  intros H. inversion H; subst. clear H.
  assert (Hone : forall name,
             In name additional_names -> In name (split_on " " name) ->
             title name = name -> ~ In name remove_list ->
             In name (get_unique_names
                        ((flat_map (frequent_txt default_top_n) ssa_names
                            ++ flat_map
                                 (fun data => map unidecode (frequent_csv default_top_n data))
                                 hispanic_names) ++ additional_names) remove_list)).
  { intros name Hn Hw Ht Hr. apply in_get_unique_names. split; [|exact Hr].
    exists name, name. split; [|split; [exact Hw | now symmetry]].
    apply in_or_app. now right. }
  unfold deny_list.
  repeat constructor; apply Hone; simpl; try tauto; try reflexivity;
    intuition discriminate.
Qed.

(** X17: a name of a [.txt] file whose frequency is above 1000 puts each of
    its words, in title case, on the deny-list for PERSON, unless the word is
    one of the terms to remove. *)
Theorem frequent_name_listed
        (ssa_names : list (list txt_row)) (hispanic_names : list (list csv_row))
        (name_list : list string) (data : list txt_row) (row : txt_row)
        (z : Z) (word : string) :
  run_name_list unidecode ssa_names hispanic_names = Ok name_list ->
  In data ssa_names -> In row data ->
  Number row = Num z -> (1000 < z)%Z ->
  In word (split_on " " (Name row)) ->
  ~ In (title word) remove_list ->
  In (title word) (deny_list PERSON name_list).
Proof.
  unfold run_name_list. rewrite process_name_txt_files_spec.
  destruct (existsb _ ssa_names); simpl; [discriminate|].
  rewrite process_name_csv_files_spec.
  destruct (existsb _ hispanic_names); simpl; [discriminate|].
  intros H Hd Hr Hz Hlt Hw Hnot. inversion H; subst. clear H.
  apply in_get_unique_names. split; [|exact Hnot].
  exists (Name row), word. split; [|split; [exact Hw | reflexivity]].
  apply in_or_app. left. apply in_or_app. left.
  apply in_flat_map. exists data. split; [exact Hd|].
  apply in_frequent_txt. exists row, z. auto.
Qed.

End CorpusFurther.

Lemma additional_names_listed_witness :
  Forall (fun name => In name (deny_list PERSON (["Mary"] ++ additional_names)))
         additional_names.
Proof.
  apply (additional_names_listed (fun s => s)
           [[ {| Name := "Mary"; Gender := "F"; Number := Num 7065 |} ]] []).
  reflexivity.
Defined.

Lemma frequent_name_listed_witness :
  In "Ann" (deny_list PERSON (["Mary ann"] ++ additional_names)).
Proof.
  apply (frequent_name_listed (fun s => s)
           [[ {| Name := "Mary ann"; Gender := "F"; Number := Num 7065 |} ]] []
           (["Mary ann"] ++ additional_names)
           [ {| Name := "Mary ann"; Gender := "F"; Number := Num 7065 |} ]
           {| Name := "Mary ann"; Gender := "F"; Number := Num 7065 |}
           7065 "ann").
  - reflexivity.
  - simpl. auto.
  - simpl. auto.
  - reflexivity.
  - lia.
  - simpl. auto.
  - simpl. intuition discriminate.
Defined.

(** ** The spans of the single character pattern *)

Section SingleCharSpans.

Import Regex.

Lemma strongly_sorted_refine {A : Type} (R R' : A -> A -> Prop) (l : list A) :
  (forall a b, In a l -> In b l -> R a b -> R' a b) ->
  StronglySorted R l -> StronglySorted R' l.
Proof.
  intros H HS. induction HS as [|a l Hl IH Ha]; constructor.
  - apply IH. intros x y Hx Hy. apply H; now right.
  - rewrite Forall_forall in Ha |- *. intros b Hb.
    apply H; [now left | now right | now apply Ha].
Qed.

Lemma get_some_lt (s : string) : forall n c, get n s = Some c -> n < String.length s.
Proof.
  induction s as [|d r IH]; intros n c; simpl; [discriminate|].
  destruct n; [lia|]. intros H. apply IH in H. lia.
Qed.

Lemma finditer_from_starts (p : pattern) (s : string) :
  forall prev off,
    Forall (fun sp => off <= fst sp) (finditer_from p prev off s)
    /\ StronglySorted (fun a b => fst a < fst b) (finditer_from p prev off s).
Proof.
  induction s as [|c r IH]; intros prev off; simpl.
  - split; constructor.
  - destruct (IH (Some c) (S off)) as [Hf Hs].
    assert (Hf' : Forall (fun sp => off <= fst sp) (finditer_from p (Some c) (S off) r)).
    { eapply Forall_impl; [|exact Hf]. simpl. intros sp. lia. }
    destruct (matches_here p prev c r); [|now split].
    split.
    + constructor; [simpl; lia | exact Hf'].
    + constructor; [exact Hs|].
      eapply Forall_impl; [|exact Hf]. simpl. intros sp. lia.
Qed.

End SingleCharSpans.

(** X18: the matches of the single character pattern come from left to right,
    each is one character inside the text, and two matches never touch: at
    least the space between them lies outside both. *)
Theorem single_char_spans_apart (text : string) :
  StronglySorted (fun a b => snd a < fst b) (single_char_matches text)
  /\ Forall (fun sp => snd sp = S (fst sp) /\ 1 <= fst sp /\ snd sp < String.length text)
            (single_char_matches text).
Proof.
  assert (Hiff : forall i j,
      In (i, j) (single_char_matches text) ->
      j = S i /\ 1 <= i
      /\ (exists c, get i text = Some c
                    /\ (in_range "B" "H" c || in_range "J" "Z" c) = true)
      /\ get j text = Some " "%char).
  { intros i j Hin. unfold single_char_matches, Regex.finditer in Hin.
    apply in_finditer_from in Hin.
    destruct Hin as [-> [k [c [Hi [Hc [Hp [Hcl Hn]]]]]]].
    simpl in Hi. subst k. split; [reflexivity|].
    split; [destruct i; [discriminate | lia]|].
    split; [|exact Hn]. exists c. split; [exact Hc|].
    simpl in Hcl. now rewrite orb_false_r in Hcl. }
  split.
  - apply (strongly_sorted_refine (fun a b => fst a < fst b)).
    + intros [i j] [i' j'] Ha Hb Hlt. simpl in *.
      apply Hiff in Ha. apply Hiff in Hb.
      destruct Ha as [-> [_ [_ Hsp]]]. destruct Hb as [_ [_ [[c [Hc Hcl]] _]]].
      destruct (Nat.eq_dec i' (S i)) as [->|Hne]; [|lia].
      rewrite Hsp in Hc. inversion Hc; subst c. vm_compute in Hcl. discriminate.
    + apply finditer_from_starts.
  - rewrite Forall_forall. intros [i j] Hin. apply Hiff in Hin.
    destruct Hin as [-> [Hi [_ Hsp]]]. simpl.
    apply get_some_lt in Hsp. lia.
Qed.

(** ** The number pattern *)


Section Numbers.

Import NumberRegex.



Lemma get_after_digits_prefix (s : string) :
  forall c, get (digits_prefix s) s = Some c -> isdigit c = false.
Proof.
  induction s as [|d r IH]; intros c; simpl; [discriminate|].
  destruct (isdigit d) eqn:E.
  - apply IH.
  - intros H. inversion H; now subst.
Qed.









End Numbers.




(** ** The [.csv] corpus *)

Lemma in_dropna (column : list (option string)) (x : string) :
  In x (dropna column) <-> In (Some x) column.
Proof.
  unfold dropna. rewrite in_flat_map. split.
  - intros [[t|] [Hc Hx]]; [|destruct Hx].
    destruct Hx as [<-|[]]. exact Hc.
  - intros H. exists (Some x). split; [exact H | now left].
Qed.

(** X21: what [process_name_csv_files] returns holds the names passed in and
    the transliterated terms of the rows that have a term and a frequency
    above [top_n], and nothing else: a row without a term adds nothing,
    however frequent. *)
Theorem process_csv_members (unidecode : string -> string)
        (files : list (list csv_row)) (name_list l : list string) (top_n : Z)
        (x : string) :
  process_name_csv_files unidecode files name_list top_n = Ok l ->
  (In x l <->
   In x name_list
   \/ exists data row term z,
       In data files /\ In row data /\ col0 row = Some term
       /\ col1 row = Num z /\ (top_n < z)%Z /\ x = unidecode term).
Proof.
  rewrite process_name_csv_files_spec.
  destruct (existsb _ files); [discriminate|].
  intros H. inversion H; subst. clear H.
  rewrite in_app_iff, in_flat_map. split.
  - intros [H|[data [Hd Hx]]]; [now left|]. right.
    apply in_map_iff in Hx. destruct Hx as [term [<- Ht]].
    unfold frequent_csv in Ht. apply in_dropna in Ht.
    apply in_map_iff in Ht. destruct Ht as [row [Hc Hr]].
    apply filter_In in Hr. destruct Hr as [Hr He].
    destruct (col1 row) as [z| |t] eqn:E; try discriminate.
    exists data, row, term, z. simpl in He. apply Z.ltb_lt in He. auto 10.
  - intros [H|[data [row [term [z [Hd [Hr [Hc [Hz [Hlt ->]]]]]]]]]]; [now left|].
    right. exists data. split; [exact Hd|].
    apply in_map. unfold frequent_csv. apply in_dropna.
    apply in_map_iff. exists row. split; [exact Hc|].
    apply filter_In. split; [exact Hr|]. rewrite Hz. simpl. now apply Z.ltb_lt.
Qed.

Lemma process_csv_members_witness :
  In "GARCIA" ["Maryellen"; "GARCIA"] <->
  In "GARCIA" ["Maryellen"]
  \/ exists data row term z,
      In data [[ {| col0 := Some "GARCIA"; col1 := Num 858289 |};
                 {| col0 := None; col1 := Num 5000 |} ]]
      /\ In row data /\ col0 row = Some term
      /\ col1 row = Num z /\ (1000 < z)%Z /\ "GARCIA" = (fun s : string => s) term.
Proof.
  apply (process_csv_members (fun s => s)
           [[ {| col0 := Some "GARCIA"; col1 := Num 858289 |};
              {| col0 := None; col1 := Num 5000 |} ]]
           ["Maryellen"] ["Maryellen"; "GARCIA"] 1000 "GARCIA").
  reflexivity.
Defined.
